(** * A grow-only counter (G-Counter) CRDT: the class [GCounter] of CRDT.py

    The Python class keeps a map from replica identifiers to counts in
    [self.state].  The constructor binds [self.state] to a
    [collections.defaultdict(int)]; [merge] builds its result from the
    literal [{}], i.e. a plain [dict].  Both facts are part of the model,
    since [d[k]] on a missing key behaves differently for the two classes. *)

From Stdlib Require Import ZArith Lia.
From stdpp Require Import base option gmap sets list strings fin_maps.

Local Open Scope Z_scope.

Module CRDT.

(** ** Python dictionaries *)

(** The exceptions the class can raise. *)
Inductive exn : Type :=
  | ValueError
  | KeyError.

(** The run-time class of a mapping object. *)
Inductive dict_class : Type :=
  | DefaultDictInt   (* collections.defaultdict(int) *)
  | Dict.            (* dict *)

(** A mapping object: its class and its items.  Python integers are
    unbounded, hence [Z]. *)
Record pydict : Type := PyDict {
  class_of : dict_class;
  items : gmap string Z
}.

#[global] Instance exn_eq_dec : EqDecision exn.
Proof. solve_decision. Defined.
#[global] Instance dict_class_eq_dec : EqDecision dict_class.
Proof. solve_decision. Defined.

(** [d1 == d2]: a [defaultdict] and a [dict] compare equal when they hold
    the same items, in whatever order they were inserted. *)
Definition dict_eq (d1 d2 : pydict) : Prop := items d1 = items d2.

(** [{}] and [collections.defaultdict(int)]. *)
Definition empty_dict : pydict := PyDict Dict ∅.
Definition defaultdict_int : pydict := PyDict DefaultDictInt ∅.

(** [d.keys()], as the set built from it. *)
Definition keys (d : pydict) : gset string := dom (items d).

(** [d.get(k, dflt)]: never raises and never adds an item, for both
    classes. *)
Definition get (d : pydict) (k : string) (dflt : Z) : Z :=
  default dflt (items d !! k).

(** [d[k] = v]. *)
Definition setitem (d : pydict) (k : string) (v : Z) : pydict :=
  PyDict (class_of d) (<[k := v]> (items d)).

(** [d[k]]: on a missing key a [dict] raises [KeyError], a
    [defaultdict(int)] stores [int() = 0] under the key and returns it. *)
Definition getitem (d : pydict) (k : string) : (exn + Z) * pydict :=
  match items d !! k with
  | Some v => (inr v, d)
  | None =>
      match class_of d with
      | DefaultDictInt => (inr 0, setitem d k 0)
      | Dict => (inl KeyError, d)
      end
  end.

(** [bool(d)]: a mapping is true when it is not empty. *)
Definition truthy (d : pydict) : bool := negb (bool_decide (items d = ∅)).

(** [d.values()] and the built-in [sum], a left fold from [0]. *)
Definition values (d : pydict) : list Z := (map_to_list (items d)).*2.
Definition py_sum (l : list Z) : Z := foldl Z.add 0 l.

(** ** GCounter.merge *)

(** One pass of the loop body:
    [merged_state[replica_id] = max(state1.get(replica_id, 0),
                                    state2.get(replica_id, 0))]. *)
Definition merge_step (state1 state2 : pydict)
    (merged_state : pydict) (replica_id : string) : pydict :=
  let count1 := get state1 replica_id 0 in
  let count2 := get state2 replica_id 0 in
  setitem merged_state replica_id (Z.max count1 count2).

(** The static method [merge]: the loop runs over the elements of
    [set(state1.keys()) | set(state2.keys())] and fills a fresh [{}]. *)
Definition merge (state1 state2 : pydict) : pydict :=
  let all_ids := keys state1 ∪ keys state2 in
  foldl (merge_step state1 state2) empty_dict (elements all_ids).

(** The order on states: [state1 <= state2] when every key's count in
    [state1] is at most its count in [state2], a missing key counting 0. *)
Definition state_le (state1 state2 : pydict) : Prop :=
  ∀ k : string, get state1 k 0 ≤ get state2 k 0.

(** The sum of the counts over all replica identifiers present in a
    state: one summand per key. *)
Definition sum_of_counts (d : pydict) : Z :=
  foldr (λ k acc, get d k 0 + acc) 0 (elements (keys d)).

(** [sum] of the values of a bare map of items. *)
Definition total (m : gmap string Z) : Z := py_sum ((map_to_list m).*2).

(** Every stored count is non-negative. *)
Definition counts_nonneg (d : pydict) : Prop :=
  map_Forall (λ _ v, 0 ≤ v) (items d).

(** ** The replica object and its methods *)

(** The two attributes set by [__init__]. *)
Record GCounter : Type := mkGCounter {
  replica_id : string;
  state : pydict
}.

(** A method body runs on [self]; it ends with a value or with a raised
    exception, and in both cases leaves an object behind. *)
Definition method (A : Type) : Type := GCounter → (exn + A) * GCounter.

#[global] Instance method_ret : MRet method :=
  λ A x self, (inr x, self).

#[global] Instance method_bind : MBind method :=
  λ A B f m self,
    match m self with
    | (inl e, self') => (inl e, self')
    | (inr x, self') => f x self'
    end.

Definition raise {A : Type} (e : exn) : method A :=
  λ self, (inl e, self).

(** [self.replica_id] and [self.state], read. *)
Definition self_replica_id : method string :=
  λ self, (inr (replica_id self), self).
Definition self_state : method pydict :=
  λ self, (inr (state self), self).

(** [self.state = d]. *)
Definition assign_state (d : pydict) : method unit :=
  λ self, (inr (), mkGCounter (replica_id self) d).

(** [self.state[k]] and [self.state[k] = v]: the mapping object bound to
    [self.state] is updated in place. *)
Definition state_getitem (k : string) : method Z :=
  λ self,
    let '(r, d) := getitem (state self) k in
    (r, mkGCounter (replica_id self) d).
Definition state_setitem (k : string) (v : Z) : method unit :=
  λ self, (inr (), mkGCounter (replica_id self) (setitem (state self) k v)).

(** [GCounter(replica_id, initial_state)]; [None] is the default of the
    second argument, and [if initial_state:] is false for [None] and for
    an empty mapping. *)
Definition init (rid : string) (initial_state : option pydict) : GCounter :=
  let self := mkGCounter rid defaultdict_int in
  match initial_state with
  | Some d =>
      if truthy d then mkGCounter (replica_id self) (merge (state self) d)
      else self
  | None => self
  end.

(** [increment]: the guard, then [self.state[self.replica_id] += amount]
    (a read of the item, the addition, a write of the item), then the
    one-item [dict] literal holding a fresh read of the item. *)
Definition increment (amount : Z) : method pydict :=
  if bool_decide (amount < 0) then raise ValueError
  else
    rid ← self_replica_id;
    old ← state_getitem rid;
    state_setitem rid (old + amount);;
    total ← state_getitem rid;
    mret (PyDict Dict {[ rid := total ]}).

(** [apply_update]: [self.state = self.merge(self.state, update_state)]. *)
Definition apply_update (update_state : pydict) : method unit :=
  s ← self_state;
  assign_state (merge s update_state).

(** [value]: [sum(self.state.values())]. *)
Definition value : method Z :=
  s ← self_state;
  mret (py_sum (values s)).

(** A call on a replica by its owner, and the object it leaves behind. *)
Inductive call : Type :=
  | Increment (amount : Z)
  | ApplyUpdate (update_state : pydict).

Definition after (c : call) (self : GCounter) : GCounter :=
  match c with
  | Increment amount => (increment amount self).2
  | ApplyUpdate u => (apply_update u self).2
  end.

Definition after_all (cs : list call) (self : GCounter) : GCounter :=
  foldl (λ s c, after c s) self cs.

(** The states a replica can be in: freshly constructed, or one call
    later than a reachable state. *)
Inductive reachable : GCounter → Prop :=
  | reachable_init rid initial_state :
      reachable (init rid initial_state)
  | reachable_call c self :
      reachable self → reachable (after c self).

(** The script that follows the class, without its [print] lines and
    with its literals as parameters: the two replica names ("A" and "B"
    in the source) and the three amounts (each the default [1] there).
    An exception in any call ends the script. *)
Definition script (a b : string) (x1 x2 y : Z) : exn + GCounter * GCounter :=
  let node_A := init a None in
  let node_B := init b None in
  match increment x1 node_A with
  | (inl e, _) => inl e
  | (inr op_A1, node_A) =>
  match increment x2 node_A with
  | (inl e, _) => inl e
  | (inr op_A2, node_A) =>
  match increment y node_B with
  | (inl e, _) => inl e
  | (inr op_B1, node_B) =>
  match apply_update op_A2 node_B with
  | (inl e, _) => inl e
  | (inr _, node_B) =>
  match apply_update op_B1 node_A with
  | (inl e, _) => inl e
  | (inr _, node_A) => inr (node_A, node_B)
  end end end end end.

(** ** Facts about mapping objects *)

Lemma pydict_ext (d1 d2 : pydict) :
  class_of d1 = class_of d2 → items d1 = items d2 → d1 = d2.
Proof. destruct d1, d2; simpl; intros -> ->; reflexivity. Qed.

Lemma get_present (d : pydict) (k : string) (v dflt : Z) :
  items d !! k = Some v → get d k dflt = v.
Proof. unfold get. intros ->. reflexivity. Qed.

Lemma get_absent (d : pydict) (k : string) (dflt : Z) :
  items d !! k = None → get d k dflt = dflt.
Proof. unfold get. intros ->. reflexivity. Qed.

Lemma elem_of_keys (d : pydict) (k : string) :
  k ∈ keys d ↔ is_Some (items d !! k).
Proof. unfold keys. apply elem_of_dom. Qed.

Lemma not_elem_of_keys (d : pydict) (k : string) :
  k ∉ keys d ↔ items d !! k = None.
Proof. unfold keys. apply not_elem_of_dom. Qed.

(** ** The loop of [merge] *)

Section merge_loop.
Variables state1 state2 : pydict.

Lemma merge_loop_class (ids : list string) (acc : pydict) :
  class_of (foldl (merge_step state1 state2) acc ids) = class_of acc.
Proof.
  revert acc. induction ids as [|id ids IH]; intros acc; simpl.
  - reflexivity.
  - rewrite IH. reflexivity.
Qed.

Lemma merge_loop_lookup (ids : list string) (acc : pydict) (k : string) :
  items (foldl (merge_step state1 state2) acc ids) !! k
  = if decide (k ∈ ids)
    then Some (Z.max (get state1 k 0) (get state2 k 0))
    else items acc !! k.
Proof.
  revert acc. induction ids as [|id ids IH]; intros acc; cbn [foldl].
  - destruct (decide (k ∈ [])) as [Hin|_]; [|reflexivity].
    by apply elem_of_nil in Hin.
  - rewrite IH. unfold merge_step, setitem; cbn [items].
    destruct (decide (k ∈ ids)) as [Hin|Hin].
    + rewrite decide_True by (by right). reflexivity.
    + destruct (decide (id = k)) as [->|Hne].
      * rewrite lookup_insert_eq, decide_True by (by left). reflexivity.
      * rewrite lookup_insert_ne by done.
        rewrite decide_False; [reflexivity|].
        intros [?|?]%elem_of_cons; congruence.
Qed.
End merge_loop.

Lemma merge_class (a b : pydict) : class_of (merge a b) = Dict.
Proof. unfold merge. apply merge_loop_class. Qed.

Lemma merge_lookup (a b : pydict) (k : string) :
  items (merge a b) !! k
  = if decide (k ∈ keys a ∪ keys b)
    then Some (Z.max (get a k 0) (get b k 0)) else None.
Proof.
  unfold merge. rewrite merge_loop_lookup. simpl.
  destruct (decide (k ∈ keys a ∪ keys b)) as [Hin|Hin].
  - rewrite decide_True by (by apply elem_of_elements). reflexivity.
  - rewrite decide_False by (by rewrite elem_of_elements). reflexivity.
Qed.

Lemma merge_keys (a b : pydict) : keys (merge a b) = keys a ∪ keys b.
Proof.
  apply set_eq; intros k. rewrite elem_of_keys, merge_lookup.
  case_decide as Hin; split; intros H; try done.
Qed.

Lemma merge_get (a b : pydict) (k : string) :
  get (merge a b) k 0 = Z.max (get a k 0) (get b k 0).
Proof.
  unfold get at 1. rewrite merge_lookup.
  case_decide as Hin; simpl; [reflexivity|].
  apply not_elem_of_union in Hin as [Ha Hb].
  apply not_elem_of_keys in Ha, Hb.
  rewrite (get_absent a), (get_absent b) by done. reflexivity.
Qed.

(** Two results of [merge] are the same object up to identity as soon as
    they agree on [get] and on their key sets. *)
Lemma merge_ext (a b c d : pydict) :
  keys a ∪ keys b = keys c ∪ keys d →
  (∀ k, Z.max (get a k 0) (get b k 0) = Z.max (get c k 0) (get d k 0)) →
  merge a b = merge c d.
Proof.
  intros Hk Hv. apply pydict_ext.
  - by rewrite !merge_class.
  - apply map_eq; intros k. rewrite !merge_lookup, Hk, Hv. reflexivity.
Qed.

(** ** Sums of counts *)

Lemma foldl_add_acc (l : list Z) (acc : Z) :
  foldl Z.add acc l = acc + foldl Z.add 0 l.
Proof.
  revert acc. induction l as [|x l IH]; intros acc; cbn [foldl].
  - lia.
  - rewrite (IH (acc + x)), (IH (0 + x)). lia.
Qed.

Lemma py_sum_nil : py_sum [] = 0.
Proof. reflexivity. Qed.

Lemma py_sum_cons (x : Z) (l : list Z) : py_sum (x :: l) = x + py_sum l.
Proof. unfold py_sum. cbn [foldl]. rewrite foldl_add_acc. lia. Qed.

Lemma py_sum_perm (l l' : list Z) : l ≡ₚ l' → py_sum l = py_sum l'.
Proof.
  induction 1 as [|x l l' _ IH|x y l|l l' l'' _ IH1 _ IH2].
  - reflexivity.
  - rewrite !py_sum_cons, IH. reflexivity.
  - rewrite !py_sum_cons. lia.
  - by rewrite IH1.
Qed.

Lemma total_empty : total (∅ : gmap string Z) = 0.
Proof. unfold total. by rewrite map_to_list_empty. Qed.

Lemma total_insert (m : gmap string Z) (k : string) (v : Z) :
  m !! k = None → total (<[k := v]> m) = v + total m.
Proof.
  intros Hk. unfold total. rewrite <- py_sum_cons. apply py_sum_perm.
  by rewrite (map_to_list_insert m k v Hk).
Qed.

Lemma total_nonneg (m : gmap string Z) :
  (∀ k, 0 ≤ default 0 (m !! k)) → 0 ≤ total m.
Proof.
  induction m as [|k v m Hk IH] using map_ind; intros Hm.
  - by rewrite total_empty.
  - rewrite total_insert by done.
    specialize (Hm k) as Hv. rewrite lookup_insert_eq in Hv. simpl in Hv.
    enough (0 ≤ total m) by lia. apply IH. intros j.
    destruct (decide (k = j)) as [<-|Hne]; [by rewrite Hk|].
    specialize (Hm j). by rewrite lookup_insert_ne in Hm.
Qed.

Lemma total_mono (m1 m2 : gmap string Z) :
  (∀ k, default 0 (m1 !! k) ≤ default 0 (m2 !! k)) → total m1 ≤ total m2.
Proof.
  revert m2. induction m1 as [|k v m1 Hk IH] using map_ind; intros m2 Hle.
  - rewrite total_empty. apply total_nonneg. intros k.
    specialize (Hle k). by rewrite lookup_empty in Hle.
  - rewrite total_insert by done.
    specialize (Hle k) as Hv. rewrite lookup_insert_eq in Hv. simpl in Hv.
    destruct (m2 !! k) as [w|] eqn:Hk2; simpl in Hv.
    + rewrite <- (insert_delete_id m2 k w Hk2).
      rewrite total_insert by apply lookup_delete_eq.
      enough (total m1 ≤ total (delete k m2)) by lia.
      apply IH. intros j. destruct (decide (k = j)) as [<-|Hne].
      * by rewrite Hk, lookup_delete_eq.
      * specialize (Hle j). rewrite lookup_insert_ne in Hle by done.
        by rewrite lookup_delete_ne.
    + enough (total m1 ≤ total m2) by lia.
      apply IH. intros j. destruct (decide (k = j)) as [<-|Hne].
      * by rewrite Hk, Hk2.
      * specialize (Hle j). by rewrite lookup_insert_ne in Hle.
Qed.

Lemma py_sum_values_mono (d1 d2 : pydict) :
  state_le d1 d2 → py_sum (values d1) ≤ py_sum (values d2).
Proof. intros Hle. apply total_mono, Hle. Qed.

(** Sums indexed by a list of keys. *)
Lemma key_sum_perm (f : string → Z) (l l' : list string) :
  l ≡ₚ l' →
  foldr (λ k acc, f k + acc) 0 l = foldr (λ k acc, f k + acc) 0 l'.
Proof.
  induction 1 as [|x l l' _ IH|x y l|l l' l'' _ IH1 _ IH2]; cbn [foldr].
  - reflexivity.
  - by rewrite IH.
  - lia.
  - by rewrite IH1.
Qed.

Lemma key_sum_ext (f g : string → Z) (l : list string) :
  (∀ k, k ∈ l → f k = g k) →
  foldr (λ k acc, f k + acc) 0 l = foldr (λ k acc, g k + acc) 0 l.
Proof.
  induction l as [|x l IH]; intros Hfg; cbn [foldr]; [reflexivity|].
  rewrite (Hfg x) by (by left). rewrite IH; [reflexivity|].
  intros k Hin. apply Hfg. by right.
Qed.

Lemma py_sum_values_sum_of_counts (d : pydict) :
  py_sum (values d) = sum_of_counts d.
Proof.
  destruct d as [c m]. unfold values, sum_of_counts, keys; cbn [items].
  fold (total m). induction m as [|k v m Hk IH] using map_ind.
  - by rewrite total_empty, dom_empty_L, elements_empty.
  - rewrite total_insert, IH by done.
    rewrite dom_insert_L.
    rewrite (key_sum_perm _ (elements ({[k]} ∪ dom m)) (k :: elements (dom m)))
      by (apply elements_union_singleton; by apply not_elem_of_dom).
    cbn [foldr]. rewrite (get_present _ k v) by apply lookup_insert_eq.
    f_equal. apply key_sum_ext. intros j Hj%elem_of_elements.
    unfold get; cbn [items]. rewrite lookup_insert_ne; [reflexivity|].
    intros ->. by apply not_elem_of_dom in Hk.
Qed.

(** ** Algebra of [merge] *)

Lemma merge_comm (a b : pydict) : merge a b = merge b a.
Proof.
  apply merge_ext.
  - apply (comm_L (∪)).
  - intros k. apply Z.max_comm.
Qed.

Lemma merge_assoc (a b c : pydict) :
  merge (merge a b) c = merge a (merge b c).
Proof.
  apply merge_ext.
  - rewrite !merge_keys. symmetry. apply (assoc_L (∪)).
  - intros k. rewrite !merge_get. symmetry. apply Z.max_assoc.
Qed.

Lemma merge_idemp_items (s : pydict) : items (merge s s) = items s.
Proof.
  apply map_eq; intros k. rewrite merge_lookup.
  rewrite (idemp_L (∪)), Z.max_id.
  destruct (items s !! k) as [v|] eqn:Hk.
  - rewrite decide_True by (apply elem_of_keys; eauto).
    by rewrite (get_present _ _ v).
  - rewrite decide_False by (by apply not_elem_of_keys). reflexivity.
Qed.

Lemma merge_absorb (s u : pydict) : merge (merge s u) u = merge s u.
Proof.
  apply pydict_ext; [by rewrite !merge_class|].
  apply map_eq; intros k. rewrite !merge_lookup, merge_keys, merge_get.
  rewrite <- (assoc_L (∪)), (idemp_L (∪) (keys u)).
  case_decide; [f_equal; lia | reflexivity].
Qed.

Lemma merge_upper_l (a b : pydict) : state_le a (merge a b).
Proof. intros k. rewrite merge_get. lia. Qed.

Lemma merge_upper_r (a b : pydict) : state_le b (merge a b).
Proof. intros k. rewrite merge_get. lia. Qed.

(** [apply_update] never raises and rebinds [self.state] to the merge. *)
Lemma apply_update_eq (u : pydict) (self : GCounter) :
  apply_update u self
  = (inr (), mkGCounter (replica_id self) (merge (state self) u)).
Proof. reflexivity. Qed.

(** ** The methods, case by case *)

Lemma value_eq (self : GCounter) :
  value self = (inr (py_sum (values (state self))), self).
Proof. reflexivity. Qed.

Lemma increment_negative (amount : Z) (self : GCounter) :
  amount < 0 → increment amount self = (inl ValueError, self).
Proof.
  intros Hneg. unfold increment.
  rewrite bool_decide_eq_true_2 by done. reflexivity.
Qed.

(** The own entry exists: it grows by [amount], for both classes. *)
Lemma increment_present (amount v : Z) (self : GCounter) :
  0 ≤ amount →
  items (state self) !! replica_id self = Some v →
  increment amount self
  = (inr (PyDict Dict {[ replica_id self := v + amount ]}),
     mkGCounter (replica_id self)
       (setitem (state self) (replica_id self) (v + amount))).
Proof.
  intros Hpos Hv. unfold increment.
  rewrite bool_decide_eq_false_2 by lia.
  unfold mbind, method_bind, mret, method_ret, self_replica_id,
    state_getitem, state_setitem, getitem.
  cbn [replica_id state]. rewrite Hv.
  cbn [replica_id state setitem items]. rewrite lookup_insert_eq.
  reflexivity.
Qed.

(** No own entry in a [defaultdict(int)]: the entry is created at
    [amount]. *)
Lemma increment_absent_defaultdict (amount : Z) (self : GCounter) :
  0 ≤ amount →
  items (state self) !! replica_id self = None →
  class_of (state self) = DefaultDictInt →
  increment amount self
  = (inr (PyDict Dict {[ replica_id self := amount ]}),
     mkGCounter (replica_id self)
       (setitem (state self) (replica_id self) amount)).
Proof.
  intros Hpos Hv Hc. unfold increment.
  rewrite bool_decide_eq_false_2 by lia.
  unfold mbind, method_bind, mret, method_ret, self_replica_id,
    state_getitem, state_setitem, getitem.
  cbn [replica_id state]. rewrite Hv, Hc.
  cbn [replica_id state setitem items class_of].
  rewrite lookup_insert_eq. unfold setitem; cbn [items class_of].
  rewrite insert_insert_eq, Z.add_0_l. reflexivity.
Qed.

(** No own entry in a plain [dict]: the read of the item raises. *)
Lemma increment_absent_dict (amount : Z) (self : GCounter) :
  0 ≤ amount →
  items (state self) !! replica_id self = None →
  class_of (state self) = Dict →
  increment amount self = (inl KeyError, self).
Proof.
  intros Hpos Hv Hc. unfold increment.
  rewrite bool_decide_eq_false_2 by lia.
  unfold mbind, method_bind, mret, method_ret, self_replica_id,
    state_getitem, state_setitem, getitem.
  cbn [replica_id state]. rewrite Hv, Hc. by destruct self.
Qed.

(** Whatever a call does, it leaves a state above the one it found. *)
Lemma setitem_le (d : pydict) (k : string) (v : Z) :
  get d k 0 ≤ v → state_le d (setitem d k v).
Proof.
  intros Hv j. unfold get, setitem; cbn [items].
  destruct (decide (k = j)) as [<-|Hne].
  - by rewrite lookup_insert_eq.
  - by rewrite lookup_insert_ne.
Qed.

Lemma increment_state_le (amount : Z) (self : GCounter) :
  state_le (state self) (state (increment amount self).2).
Proof.
  destruct (decide (amount < 0)) as [Hneg|Hpos].
  { rewrite increment_negative by done. by intros k. }
  destruct (items (state self) !! replica_id self) as [v|] eqn:Hv.
  { rewrite (increment_present amount v) by (done || lia).
    apply setitem_le. rewrite (get_present _ _ v) by done. lia. }
  destruct (class_of (state self)) eqn:Hc.
  - rewrite increment_absent_defaultdict by (done || lia).
    apply setitem_le. rewrite get_absent by done. lia.
  - rewrite increment_absent_dict by (done || lia). by intros k.
Qed.

Lemma after_state_le (c : call) (self : GCounter) :
  state_le (state self) (state (after c self)).
Proof.
  destruct c as [amount|u]; cbn [after].
  - apply increment_state_le.
  - rewrite apply_update_eq. apply merge_upper_l.
Qed.

Lemma after_all_snoc (cs : list call) (c : call) (self : GCounter) :
  after_all (cs ++ [c]) self = after c (after_all cs self).
Proof. unfold after_all. by rewrite foldl_app. Qed.

(** Merging into non-negative counts gives non-negative counts. *)
Lemma merge_nonneg (local update : pydict) :
  counts_nonneg local → counts_nonneg (merge local update).
Proof.
  intros Hl k v. rewrite merge_lookup.
  case_decide; [|done]. intros [= <-].
  destruct (items local !! k) as [w|] eqn:Hk.
  - rewrite (get_present _ _ w) by done. specialize (Hl k w Hk). simpl in Hl.
    lia.
  - rewrite (get_absent local) by done. lia.
Qed.

(** ** The claims about [merge] *)

(** C2: [merge(a, b)] has as keys the union of the keys of [a] and [b],
    and maps each of them to the larger of the two counts, a key missing
    from a map counting 0 there; it has no other item. *)
Theorem merge_is_pointwise_max (a b : pydict) :
  keys (merge a b) = keys a ∪ keys b ∧
  ∀ k : string,
    items (merge a b) !! k
    = if decide (k ∈ keys a ∪ keys b)
      then Some (Z.max (get a k 0) (get b k 0)) else None.
Proof. split; [apply merge_keys | apply merge_lookup]. Qed.

(** C3: commutativity, [merge(a, b) == merge(b, a)]. *)
Theorem merge_commutative (a b : pydict) :
  dict_eq (merge a b) (merge b a).
Proof. unfold dict_eq. by rewrite merge_comm. Qed.

(** C4: associativity,
    [merge(merge(a, b), c) == merge(a, merge(b, c))]. *)
Theorem merge_associative (a b c : pydict) :
  dict_eq (merge (merge a b) c) (merge a (merge b c)).
Proof. unfold dict_eq. by rewrite merge_assoc. Qed.

(** C5: idempotence, [merge(s, s) == s]; and a replica that applies the
    same update twice ends in the state it is in after applying it
    once. *)
Theorem merge_idempotent (s : pydict) :
  dict_eq (merge s s) s ∧
  ∀ (self : GCounter) (update : pydict),
    apply_update update (apply_update update self).2
    = apply_update update self.
Proof.
  split; [apply merge_idemp_items|].
  intros self update. rewrite !apply_update_eq. cbn [snd replica_id state].
  by rewrite merge_absorb.
Qed.

(** C8: the result of [merge] dominates both arguments in the order
    [state_le]. *)
Theorem merge_dominates (a b : pydict) :
  state_le a (merge a b) ∧ state_le b (merge a b).
Proof. split; [apply merge_upper_l | apply merge_upper_r]. Qed.

(** ** The claims about the replica *)

(** What [increment] does wherever the read of the own entry succeeds:
    the own entry grows by [amount] (from 0 when a [defaultdict] has to
    create it) and the one-entry map with the new total is returned. *)
Lemma increment_ok (amount : Z) (self : GCounter) :
  0 ≤ amount →
  class_of (state self) = DefaultDictInt
  ∨ replica_id self ∈ keys (state self) →
  let new_total := get (state self) (replica_id self) 0 + amount in
  increment amount self
  = (inr (PyDict Dict {[ replica_id self := new_total ]}),
     mkGCounter (replica_id self)
       (setitem (state self) (replica_id self) new_total)).
Proof.
  intros Hpos Hok.
  destruct (items (state self) !! replica_id self) as [v|] eqn:Hv.
  - rewrite (get_present _ _ v) by done. by apply increment_present.
  - rewrite get_absent, Z.add_0_l by done.
    destruct Hok as [Hc|Hin].
    + by apply increment_absent_defaultdict.
    + apply elem_of_keys in Hin as [v Hv']. congruence.
Qed.

(** C1: [increment] does not create a missing own entry in every
    reachable state.  Replica "B" that has received the update
    [{"A": 2}] before its first increment, or that was constructed from
    it, holds a plain [dict] without the key "B", and [increment(1)]
    raises [KeyError] and changes nothing. *)
Theorem increment_raises_KeyError_after_merge :
  let update := PyDict Dict {[ "A" := 2 ]} in
  let applied := after (ApplyUpdate update) (init "B" None) in
  let seeded := init "B" (Some update) in
  reachable applied ∧ reachable seeded ∧
  state applied = update ∧ state seeded = update ∧
  increment 1 applied = (inl KeyError, applied) ∧
  increment 1 seeded = (inl KeyError, seeded).
Proof.
  cbv zeta. split; [|split]; [repeat constructor..|].
  repeat split; vm_compute; reflexivity.
Qed.

(** C6: a negative [amount] makes [increment] raise [ValueError]; the
    object is left as it was, and so is what [value()] returns. *)
Theorem increment_rejects_negative (self : GCounter) (amount : Z) :
  amount < 0 →
  increment amount self = (inl ValueError, self) ∧
  state (increment amount self).2 = state self ∧
  (value (increment amount self).2).1 = (value self).1.
Proof.
  intros Hneg. rewrite increment_negative by done. done.
Qed.

Lemma increment_rejects_negative_witness :
  let self := after (Increment 2) (init "A" None) in
  -1 < 0 ∧
  increment (-1) self = (inl ValueError, self) ∧
  (value (increment (-1) self).2).1 = inr 2.
Proof.
  cbv zeta. split; [lia|].
  destruct (increment_rejects_negative
              (after (Increment 2) (init "A" None)) (-1)) as (H1 & _ & H3);
    [lia|].
  split; [exact H1|]. rewrite H3. vm_compute. reflexivity.
Defined.

(** C7: along any sequence of [increment] and [apply_update] calls, with
    any integer amounts and any update maps, [value()] returns a number
    before each call and a number after it, and the second is not
    smaller than the first. *)
Theorem value_never_decreases (self : GCounter) (cs : list call) (c : call) :
  ∃ before later : Z,
    (value (after_all cs self)).1 = inr before ∧
    (value (after_all (cs ++ [c]) self)).1 = inr later ∧
    before ≤ later.
Proof.
  rewrite after_all_snoc. rewrite !value_eq. cbn [fst].
  do 2 eexists. split; [reflexivity|]. split; [reflexivity|].
  apply py_sum_values_mono, after_state_le.
Qed.

(** C9: [value()] returns the sum of the counts over the replica
    identifiers present in the local state, and leaves the object as it
    was. *)
Theorem value_is_sum_of_counts (self : GCounter) :
  value self = (inr (sum_of_counts (state self)), self).
Proof. rewrite value_eq, py_sum_values_sum_of_counts. reflexivity. Qed.

(** C10: non-negative local counts stay non-negative when any update is
    merged in, by [apply_update] or by the constructor; a negative count
    in the update for a key gives way to the local count of that key,
    which is 0 for a key the local state does not have. *)
Theorem merge_keeps_counts_nonneg
    (self : GCounter) (update : pydict)
    (rid : string) (initial_state : option pydict) :
  counts_nonneg (state self) →
  counts_nonneg (state (apply_update update self).2) ∧
  counts_nonneg (state (init rid initial_state)) ∧
  ∀ (k : string) (v : Z),
    items update !! k = Some v → v < 0 →
    items (state (apply_update update self).2) !! k
    = Some (get (state self) k 0).
Proof.
  intros Hself. rewrite apply_update_eq. cbn [snd state].
  split; [by apply merge_nonneg|]. split.
  - unfold init. destruct initial_state as [d|]; [destruct (truthy d)|];
      cbn [state]; try apply merge_nonneg; apply map_Forall_empty.
  - intros k v Hk Hv. rewrite merge_lookup.
    rewrite decide_True
      by (apply elem_of_union_r, elem_of_keys; eauto).
    rewrite (get_present update _ v) by done. f_equal.
    destruct (items (state self) !! k) as [w|] eqn:Hw.
    + rewrite (get_present _ _ w) by done.
      specialize (Hself k w Hw). simpl in Hself. lia.
    + rewrite get_absent by done. lia.
Qed.

Lemma merge_keeps_counts_nonneg_witness :
  let self := mkGCounter "A" (PyDict DefaultDictInt {[ "A" := 5 ]}) in
  let update := PyDict Dict {[ "A" := -3; "B" := -1 ]} in
  counts_nonneg (state self) ∧
  counts_nonneg (state (apply_update update self).2) ∧
  counts_nonneg (state (init "B" (Some update))) ∧
  items (state (apply_update update self).2) !! "B" = Some 0.
Proof.
  cbv zeta.
  assert (counts_nonneg (PyDict DefaultDictInt {[ "A" := 5 ]})) as Hself.
  { apply map_Forall_singleton. lia. }
  split; [exact Hself|].
  destruct (merge_keeps_counts_nonneg
              (mkGCounter "A" (PyDict DefaultDictInt {[ "A" := 5 ]}))
              (PyDict Dict {[ "A" := -3; "B" := -1 ]})
              "B" (Some (PyDict Dict {[ "A" := -3; "B" := -1 ]}))
              Hself) as (H1 & H2 & H3).
  split; [exact H1|]. split; [exact H2|].
  rewrite (H3 "B" (-1)); [reflexivity|reflexivity|lia].
Defined.

(** ** Further properties of [increment] *)

(** All four ways through [increment] in one equation. *)
Lemma increment_result (amount : Z) (self : GCounter) :
  increment amount self
  = if decide (amount < 0) then (inl ValueError, self)
    else
      let rid := replica_id self in
      match items (state self) !! rid, class_of (state self) with
      | Some v, _ =>
          (inr (PyDict Dict {[ rid := v + amount ]}),
           mkGCounter rid (setitem (state self) rid (v + amount)))
      | None, DefaultDictInt =>
          (inr (PyDict Dict {[ rid := amount ]}),
           mkGCounter rid (setitem (state self) rid amount))
      | None, Dict => (inl KeyError, self)
      end.
Proof.
  case_decide as Hneg; [by apply increment_negative|]. cbv zeta.
  destruct (items (state self) !! replica_id self) as [v|] eqn:Hv.
  - apply increment_present; [lia|done].
  - destruct (class_of (state self)) eqn:Hc.
    + apply increment_absent_defaultdict; [lia|done..].
    + apply increment_absent_dict; [lia|done..].
Qed.

Lemma total_insert_present (m : gmap string Z) (k : string) (v w : Z) :
  m !! k = Some v → total (<[k := w]> m) = total m - v + w.
Proof.
  intros Hk. rewrite <- (insert_delete_eq m k w).
  rewrite <- (insert_delete_id m k v Hk) at 2.
  rewrite !total_insert by apply lookup_delete_eq. lia.
Qed.

(** X2: [increment] raises [ValueError] exactly for a negative amount,
    and [KeyError] exactly for a non-negative amount on a replica whose
    state is a plain [dict] without the replica's own key. *)
Theorem increment_raises_iff (amount : Z) (self : GCounter) :
  ((increment amount self).1 = inl ValueError ↔ amount < 0) ∧
  ((increment amount self).1 = inl KeyError ↔
     0 ≤ amount ∧ class_of (state self) = Dict ∧
     replica_id self ∉ keys (state self)).
Proof.
  rewrite increment_result, not_elem_of_keys.
  case_decide as Hneg; cbv zeta; cbn [fst].
  { split; split; try done. intros [? _]; lia. }
  destruct (items (state self) !! replica_id self) as [v|];
    [|destruct (class_of (state self))]; cbn [fst].
  - split; split; try done; try lia. intros (_ & _ & [=]).
  - split; split; try done; try lia. intros (_ & [=] & _).
  - split; split; try done; try lia. intros _. split; [lia|done].
Qed.

(** X3: a call of [increment] that raises, whichever exception it is,
    leaves the replica exactly as it was. *)
Theorem increment_failure_changes_nothing
    (amount : Z) (self : GCounter) (e : exn) :
  (increment amount self).1 = inl e → (increment amount self).2 = self.
Proof.
  rewrite increment_result. case_decide; cbv zeta; [done|].
  destruct (items (state self) !! replica_id self) as [v|];
    [|destruct (class_of (state self))]; cbn [fst snd]; done.
Qed.

Lemma increment_failure_changes_nothing_witness :
  let self := init "B" (Some (PyDict Dict {[ "A" := 2 ]})) in
  (increment 1 self).1 = inl KeyError ∧ (increment 1 self).2 = self.
Proof.
  cbv zeta. split; [vm_compute; reflexivity|].
  apply (increment_failure_changes_nothing 1 _ KeyError).
  vm_compute. reflexivity.
Defined.

(** X4: [increment] keeps the replica's name and the class of its state,
    and writes no entry of the state other than the replica's own. *)
Theorem increment_touches_own_entry_only (amount : Z) (self : GCounter) :
  let self' := (increment amount self).2 in
  replica_id self' = replica_id self ∧
  class_of (state self') = class_of (state self) ∧
  delete (replica_id self) (items (state self'))
  = delete (replica_id self) (items (state self)).
Proof.
  cbv zeta. rewrite increment_result. case_decide; cbv zeta; [done|].
  destruct (items (state self) !! replica_id self) as [v|];
    [|destruct (class_of (state self)) eqn:Hc]; cbn [snd replica_id state];
    try done; unfold setitem; cbn [class_of items];
    by rewrite delete_insert_eq.
Qed.

(** X5: a call of [increment] that returns makes [value()] larger by
    exactly [amount]. *)
Theorem increment_adds_amount_to_value
    (amount : Z) (self : GCounter) (op : pydict) :
  (increment amount self).1 = inr op →
  ∃ v : Z,
    (value self).1 = inr v ∧
    (value (increment amount self).2).1 = inr (v + amount).
Proof.
  rewrite !value_eq. cbn [fst]. intros Hop. eexists. split; [reflexivity|].
  f_equal. revert Hop. rewrite increment_result.
  case_decide; cbv zeta; [done|].
  destruct (items (state self) !! replica_id self) as [v|] eqn:Hv;
    [|destruct (class_of (state self))]; cbn [fst snd state]; [| |done];
    intros _; unfold values, setitem; cbn [items];
    fold (total (items (state self)));
    match goal with |- py_sum (?l.*2) = _ =>
      match l with map_to_list ?m => fold (total m) end end.
  - rewrite (total_insert_present _ _ v) by done. lia.
  - rewrite total_insert by done. lia.
Qed.

Lemma increment_adds_amount_to_value_witness :
  let self := after (ApplyUpdate (PyDict Dict {[ "B" := 4 ]}))
                (after (Increment 2) (init "A" None)) in
  (increment 3 self).1 = inr (PyDict Dict {[ "A" := 5 ]}) ∧
  ∃ v : Z,
    (value self).1 = inr v ∧ (value (increment 3 self).2).1 = inr (v + 3).
Proof.
  cbv zeta. split; [vm_compute; reflexivity|].
  apply (increment_adds_amount_to_value 3 _ (PyDict Dict {[ "A" := 5 ]})).
  vm_compute. reflexivity.
Defined.

(** ** Invariants along the life of a replica *)

Lemma after_all_cons (c : call) (cs : list call) (self : GCounter) :
  after_all (c :: cs) self = after_all cs (after c self).
Proof. reflexivity. Qed.

Lemma init_counts_nonneg (rid : string) (initial_state : option pydict) :
  counts_nonneg (state (init rid initial_state)).
Proof.
  unfold init. destruct initial_state as [d|]; [destruct (truthy d)|];
    cbn [state]; try apply merge_nonneg; apply map_Forall_empty.
Qed.

Lemma after_counts_nonneg (c : call) (self : GCounter) :
  counts_nonneg (state self) → counts_nonneg (state (after c self)).
Proof.
  intros Hself. destruct c as [amount|u]; cbn [after].
  - rewrite increment_result. case_decide as Hneg; cbv zeta; [done|].
    destruct (items (state self) !! replica_id self) as [v|] eqn:Hv;
      [|destruct (class_of (state self))]; cbn [snd state]; [| |done];
      apply map_Forall_insert_2; try done; [|lia].
    specialize (Hself _ _ Hv). cbn beta in Hself. lia.
  - rewrite apply_update_eq. by apply merge_nonneg.
Qed.

Lemma after_all_counts_nonneg (cs : list call) (self : GCounter) :
  counts_nonneg (state self) → counts_nonneg (state (after_all cs self)).
Proof.
  revert self. induction cs as [|c cs IH]; intros self Hself; [done|].
  rewrite after_all_cons. by apply IH, after_counts_nonneg.
Qed.

Lemma after_replica_id (c : call) (self : GCounter) :
  replica_id (after c self) = replica_id self.
Proof.
  destruct c as [amount|u]; cbn [after]; [|done].
  rewrite increment_result. case_decide; cbv zeta; [done|].
  by destruct (items (state self) !! replica_id self),
    (class_of (state self)).
Qed.

Lemma after_keys (c : call) (self : GCounter) :
  keys (state self) ⊆ keys (state (after c self)).
Proof.
  destruct c as [amount|u]; cbn [after].
  - rewrite increment_result. case_decide; cbv zeta; [done|].
    destruct (items (state self) !! replica_id self),
      (class_of (state self)); cbn [snd state]; try done;
      unfold keys, setitem; cbn [items]; rewrite dom_insert_L;
      apply union_subseteq_r.
  - rewrite apply_update_eq. cbn [snd state]. rewrite merge_keys.
    apply union_subseteq_l.
Qed.

Lemma state_le_trans (a b c : pydict) :
  state_le a b → state_le b c → state_le a c.
Proof. intros Hab Hbc k. specialize (Hab k). specialize (Hbc k). lia. Qed.

Lemma after_all_state_le (cs : list call) (self : GCounter) :
  state_le (state self) (state (after_all cs self)).
Proof.
  revert self. induction cs as [|c cs IH]; intros self; [by intros k|].
  rewrite after_all_cons.
  eapply state_le_trans; [apply after_state_le | apply IH].
Qed.

Lemma after_all_replica_id (cs : list call) (self : GCounter) :
  replica_id (after_all cs self) = replica_id self.
Proof.
  revert self. induction cs as [|c cs IH]; intros self; [done|].
  by rewrite after_all_cons, IH, after_replica_id.
Qed.

Lemma after_all_keys (cs : list call) (self : GCounter) :
  keys (state self) ⊆ keys (state (after_all cs self)).
Proof.
  revert self. induction cs as [|c cs IH]; intros self; [done|].
  rewrite after_all_cons. etrans; [apply after_keys | apply IH].
Qed.

(** X1: whatever the constructor is given and whatever calls follow,
    every count the replica stores is non-negative, and [value()]
    returns a non-negative number. *)
Theorem replica_counts_always_nonneg
    (rid : string) (initial_state : option pydict) (cs : list call) :
  let self := after_all cs (init rid initial_state) in
  counts_nonneg (state self) ∧
  ∃ v : Z, (value self).1 = inr v ∧ 0 ≤ v.
Proof.
  cbv zeta.
  pose proof (after_all_counts_nonneg cs _
                (init_counts_nonneg rid initial_state)) as Hnn.
  split; [done|]. rewrite value_eq. eexists. split; [reflexivity|].
  apply total_nonneg. intros k.
  destruct (items _ !! k) as [v|] eqn:Hk; [|done].
  apply (Hnn _ _ Hk).
Qed.

(** X6: no call renames the replica, and no call removes a key from its
    state: the key set only grows. *)
Theorem calls_keep_name_and_keys (cs : list call) (self : GCounter) :
  replica_id (after_all cs self) = replica_id self ∧
  keys (state self) ⊆ keys (state (after_all cs self)).
Proof. split; [apply after_all_replica_id | apply after_all_keys]. Qed.

(** X7: once the state holds the replica's own key, [increment] with a
    non-negative amount returns after any further calls: it yields the
    one-entry map for the replica's own name, with a total of at least
    the earlier own count plus [amount]. *)
Theorem increment_keeps_working
    (self : GCounter) (cs : list call) (amount : Z) :
  replica_id self ∈ keys (state self) →
  0 ≤ amount →
  ∃ new_total : Z,
    (increment amount (after_all cs self)).1
    = inr (PyDict Dict {[ replica_id self := new_total ]}) ∧
    get (state self) (replica_id self) 0 + amount ≤ new_total.
Proof.
  intros Hown Hpos.
  pose proof (after_all_replica_id cs self) as Hrid.
  pose proof (after_all_keys cs self) as Hkeys.
  pose proof (after_all_state_le cs self (replica_id self)) as Hle.
  rewrite increment_ok; [|done|right; rewrite Hrid; by apply Hkeys].
  cbn [fst]. rewrite Hrid. eexists. split; [reflexivity|]. lia.
Qed.

Lemma increment_keeps_working_witness :
  let self := after (Increment 1) (init "B" None) in
  let cs := [ApplyUpdate (PyDict Dict {[ "A" := 2 ]}); Increment (-4)] in
  replica_id self ∈ keys (state self) ∧ 0 ≤ 1 ∧
  ∃ new_total : Z,
    (increment 1 (after_all cs self)).1
    = inr (PyDict Dict {[ replica_id self := new_total ]}) ∧
    get (state self) (replica_id self) 0 + 1 ≤ new_total.
Proof.
  cbv zeta.
  assert (replica_id (after (Increment 1) (init "B" None))
          ∈ keys (state (after (Increment 1) (init "B" None)))) as Hown.
  { apply (elem_of_dom_2 _ _ 1). vm_compute. reflexivity. }
  split; [exact Hown|]. split; [lia|].
  apply increment_keeps_working; [exact Hown|lia].
Defined.

(** ** [merge] as a least upper bound, and the constructor *)


Lemma state_le_singleton (c1 c2 : dict_class) (k : string) (v w : Z) :
  v ≤ w → state_le (PyDict c1 {[ k := v ]}) (PyDict c2 {[ k := w ]}).
Proof.
  intros Hvw j. unfold get; cbn [items].
  destruct (decide (k = j)) as [<-|Hne].
  - by rewrite !lookup_singleton_eq.
  - by rewrite !lookup_singleton_ne.
Qed.

(** A mapping is determined, up to its class, by its keys and by what
    [get] reads from it. *)
Lemma items_ext_get (d1 d2 : pydict) :
  keys d1 = keys d2 → (∀ k, get d1 k 0 = get d2 k 0) → items d1 = items d2.
Proof.
  intros Hkeys Hget. apply map_eq; intros k.
  destruct (items d1 !! k) as [v|] eqn:H1.
  - assert (k ∈ keys d2) as [w H2]%elem_of_keys
      by (rewrite <- Hkeys; apply elem_of_keys; eauto).
    specialize (Hget k).
    rewrite (get_present d1 k v), (get_present d2 k w) in Hget by done.
    congruence.
  - apply not_elem_of_keys in H1. rewrite Hkeys in H1.
    by apply not_elem_of_keys in H1.
Qed.

(** X8: [merge(a, b)] is the least state above [a] and [b]: it lies
    below every state that dominates both. *)
Theorem merge_least_upper_bound (a b c : pydict) :
  state_le a c → state_le b c → state_le (merge a b) c.
Proof.
  intros Ha Hb k. rewrite merge_get.
  specialize (Ha k). specialize (Hb k). lia.
Qed.

Lemma merge_least_upper_bound_witness :
  let a := PyDict Dict {[ "A" := 1 ]} in
  let b := PyDict Dict {[ "A" := 2 ]} in
  let c := PyDict Dict {[ "A" := 3 ]} in
  state_le a c ∧ state_le b c ∧ state_le (merge a b) c.
Proof.
  cbv zeta.
  assert (state_le (PyDict Dict {[ "A" := 1 ]}) (PyDict Dict {[ "A" := 3 ]}))
    as Ha by (apply state_le_singleton; lia).
  assert (state_le (PyDict Dict {[ "A" := 2 ]}) (PyDict Dict {[ "A" := 3 ]}))
    as Hb by (apply state_le_singleton; lia).
  split; [exact Ha|]. split; [exact Hb|].
  exact (merge_least_upper_bound _ _ _ Ha Hb).
Defined.

(** X9: the constructor keeps the given name.  A seed state is stored
    with every negative count raised to 0; a non-empty seed leaves the
    replica with a plain [dict], an empty one with the [defaultdict],
    exactly as when no seed is given. *)
Theorem init_stores_seed (rid : string) (seed : pydict) :
  replica_id (init rid (Some seed)) = rid ∧
  items (state (init rid (Some seed))) = Z.max 0 <$> items seed ∧
  class_of (state (init rid (Some seed)))
  = (if truthy seed then Dict else DefaultDictInt) ∧
  (if truthy seed then True else init rid (Some seed) = init rid None).
Proof.
  unfold init. destruct (truthy seed) eqn:Ht; cbn [replica_id state].
  - split; [done|]. split; [|by rewrite merge_class].
    apply map_eq; intros k. rewrite merge_lookup, lookup_fmap.
    assert (keys defaultdict_int = ∅) as -> by apply dom_empty_L.
    rewrite (left_id_L ∅ (∪)).
    rewrite (get_absent defaultdict_int) by apply lookup_empty.
    destruct (items seed !! k) as [v|] eqn:Hk.
    + rewrite decide_True by (apply elem_of_keys; eauto).
      by rewrite (get_present _ _ v).
    + rewrite decide_False by (by apply not_elem_of_keys). done.
  - split; [done|]. split; [|done].
    unfold truthy in Ht. apply negb_false_iff, bool_decide_eq_true in Ht.
    cbn [defaultdict_int items]. by rewrite Ht, fmap_empty.
Qed.

(** ** Stale updates and convergence *)

(** X10: an update that reports nothing above what the replica already
    holds changes no count and not the value; when all its keys are
    known to the replica, the state compares equal to the old one. *)
Theorem stale_update_changes_no_count (self : GCounter) (update : pydict) :
  state_le update (state self) →
  let self' := (apply_update update self).2 in
  (∀ k : string, get (state self') k 0 = get (state self) k 0) ∧
  (value self').1 = (value self).1 ∧
  (keys update ⊆ keys (state self) → dict_eq (state self') (state self)).
Proof.
  intros Hle. cbv zeta. rewrite apply_update_eq. cbn [snd].
  assert (∀ k, get (merge (state self) update) k 0 = get (state self) k 0)
    as Hget.
  { intros k. rewrite merge_get. specialize (Hle k). lia. }
  split; [exact Hget|]. split.
  - rewrite !value_eq. cbn [fst state]. f_equal.
    apply Z.le_antisymm; apply total_mono; intros k;
      specialize (Hget k); unfold get in Hget; lia.
  - intros Hsub. cbn [state]. apply items_ext_get; [|exact Hget].
    rewrite merge_keys, (comm_L (∪)). by apply subseteq_union_1_L.
Qed.

Lemma stale_update_changes_no_count_witness :
  let op := PyDict Dict {[ "A" := 2 ]} in
  let self := after (ApplyUpdate op) (after (Increment 1) (init "B" None)) in
  state_le op (state self) ∧
  (value (apply_update op self).2).1 = (value self).1.
Proof.
  cbv zeta.
  assert (state_le (PyDict Dict {[ "A" := 2 ]})
            (state (after (ApplyUpdate (PyDict Dict {[ "A" := 2 ]}))
                      (after (Increment 1) (init "B" None))))) as Hle
    by apply merge_upper_r.
  split; [exact Hle|].
  exact (proj1 (proj2 (stale_update_changes_no_count _ _ Hle))).
Defined.









(** ** Sending the result of [increment] to another replica *)

Lemma get_singleton_eq (c : dict_class) (k : string) (v : Z) :
  get (PyDict c {[ k := v ]}) k 0 = v.
Proof. unfold get; cbn [items]. by rewrite lookup_singleton_eq. Qed.

Lemma get_singleton_ne (c : dict_class) (k j : string) (v : Z) :
  k ≠ j → get (PyDict c {[ k := v ]}) j 0 = 0.
Proof. intros Hne. unfold get; cbn [items]. by rewrite lookup_singleton_ne. Qed.

Lemma get_setitem_eq (d : pydict) (k : string) (v : Z) :
  get (setitem d k v) k 0 = v.
Proof. unfold get, setitem; cbn [items]. by rewrite lookup_insert_eq. Qed.

(** X12: when [increment] on a replica returns a map and another replica
    applies that map, the receiver's count for the sender becomes the
    larger of its old count and the sender's own new count; for every
    other key the receiver reads its old count, raised to 0 if it was
    negative. *)
Theorem increment_result_delivered
    (sender receiver : GCounter) (amount : Z) (op : pydict) :
  (increment amount sender).1 = inr op →
  let sender' := (increment amount sender).2 in
  let receiver' := (apply_update op receiver).2 in
  get (state receiver') (replica_id sender) 0
  = Z.max (get (state receiver) (replica_id sender) 0)
          (get (state sender') (replica_id sender) 0) ∧
  ∀ k : string, k ≠ replica_id sender →
    get (state receiver') k 0 = Z.max (get (state receiver) k 0) 0.
Proof.
  cbv zeta. rewrite apply_update_eq. cbn [snd state].
  rewrite increment_result. case_decide; cbv zeta; [done|].
  destruct (items (state sender) !! replica_id sender) as [v|];
    [|destruct (class_of (state sender))]; cbn [fst snd state];
    intros [= <-]; (split; [|intros k Hk]); rewrite merge_get.
  - by rewrite get_singleton_eq, get_setitem_eq.
  - by rewrite get_singleton_ne.
  - by rewrite get_singleton_eq, get_setitem_eq.
  - by rewrite get_singleton_ne.
Qed.

Lemma increment_result_delivered_witness :
  let sender := after (Increment 1) (init "A" None) in
  let receiver := after (Increment 1) (init "B" None) in
  let op := PyDict Dict {[ "A" := 2 ]} in
  (increment 1 sender).1 = inr op ∧
  get (state (apply_update op receiver).2) (replica_id sender) 0
  = Z.max (get (state receiver) (replica_id sender) 0)
          (get (state (increment 1 sender).2) (replica_id sender) 0).
Proof.
  cbv zeta.
  assert ((increment 1 (after (Increment 1) (init "A" None))).1
          = inr (PyDict Dict {[ "A" := 2 ]})) as Hop
    by (vm_compute; reflexivity).
  split; [exact Hop|].
  exact (proj1 (increment_result_delivered _
                  (after (Increment 1) (init "B" None)) _ _ Hop)).
Defined.

(** ** The script *)

Lemma merge_disjoint_singletons
    (c1 c2 : dict_class) (a b : string) (v w : Z) :
  a ≠ b → 0 ≤ v → 0 ≤ w →
  merge (PyDict c1 {[ a := v ]}) (PyDict c2 {[ b := w ]})
  = PyDict Dict {[ a := v; b := w ]}.
Proof.
  intros Hab Hv Hw. apply pydict_ext; [apply merge_class|].
  cbn [items]. apply map_eq; intros k. rewrite merge_lookup.
  unfold keys; cbn [items]. rewrite !dom_singleton_L.
  destruct (decide (k = a)) as [->|Hka].
  - rewrite decide_True by set_solver.
    rewrite get_singleton_eq, get_singleton_ne, lookup_insert_eq by done.
    f_equal. lia.
  - rewrite lookup_insert_ne by done.
    destruct (decide (k = b)) as [->|Hkb].
    + rewrite decide_True by set_solver.
      rewrite get_singleton_eq, get_singleton_ne, lookup_singleton_eq
        by done.
      f_equal. lia.
    + rewrite decide_False
        by (rewrite elem_of_union, !elem_of_singleton; tauto).
      by rewrite lookup_singleton_ne.
Qed.

(** X13: run with two different replica names and non-negative amounts,
    the script raises nothing and ends with both nodes holding the same
    two counts, the first node's two increments added up, and with both
    reporting their sum as [value()]. *)
Theorem script_converges (a b : string) (x1 x2 y : Z) :
  a ≠ b → 0 ≤ x1 → 0 ≤ x2 → 0 ≤ y →
  ∃ node_A node_B : GCounter,
    script a b x1 x2 y = inr (node_A, node_B) ∧
    state node_A = PyDict Dict {[ a := x1 + x2; b := y ]} ∧
    state node_B = state node_A ∧
    (value node_A).1 = inr (x1 + x2 + y) ∧
    (value node_B).1 = inr (x1 + x2 + y).
Proof.
  intros Hab Hx1 Hx2 Hy. unfold script, init. cbv zeta.
  rewrite (increment_absent_defaultdict x1 (mkGCounter a defaultdict_int))
    by (done || apply lookup_empty).
  rewrite (increment_absent_defaultdict y (mkGCounter b defaultdict_int))
    by (done || apply lookup_empty).
  cbn [replica_id state].
  rewrite (increment_present x2 x1) by (done || apply lookup_insert_eq).
  cbn [replica_id state]. rewrite !apply_update_eq.
  cbn [replica_id state]. unfold setitem, defaultdict_int; cbn [items class_of].
  rewrite insert_insert_eq, !insert_empty.
  rewrite (merge_comm (PyDict DefaultDictInt {[ b := y ]})).
  rewrite !merge_disjoint_singletons by (done || lia).
  do 2 eexists. split; [reflexivity|]. cbn [state].
  split; [done|]. split; [done|].
  rewrite !value_eq. cbn [fst state]. unfold values; cbn [items].
  fold (total ({[ a := x1 + x2; b := y ]} : gmap string Z)).
  rewrite total_insert by (by apply lookup_singleton_ne).
  rewrite <- insert_empty, total_insert, total_empty by apply lookup_empty.
  split; f_equal; lia.
Qed.

Lemma script_converges_witness :
  "A" ≠ "B" ∧ 0 ≤ 1 ∧
  ∃ node_A node_B : GCounter,
    script "A" "B" 1 1 1 = inr (node_A, node_B) ∧
    state node_A = PyDict Dict {[ "A" := 1 + 1; "B" := 1 ]} ∧
    state node_B = state node_A ∧
    (value node_A).1 = inr (1 + 1 + 1) ∧
    (value node_B).1 = inr (1 + 1 + 1).
Proof.
  split; [discriminate|]. split; [lia|].
  apply script_converges; [discriminate|lia..].
Defined.

End CRDT.
